(** * Beanstalkg: the job entity of [architecture/job.go]

    A shallow embedding of the [Job] record, its constructor [NewJob], the
    state machine [SetState], the priority key [Key] and the
    [AwaitingClient] handle, followed by the properties of the job life
    cycle that the design document states about them.

    Conventions.
    - Go's [int64] is a [Z] kept in the signed 64-bit range; arithmetic on
      it wraps around ([Int64.wrap]).
    - [type State int] is a [Z]; the four constants are [READY] .. [BURIED].
      A [switch] over a state is a chain of equality tests whose last
      branch is the fall-through of the Go [switch].
    - A method with a pointer receiver is a computation in [method S A]:
      it reads the wall clock ([time.Now().Unix()]), may update the
      receiver and returns a value.
    - Go's [error] is [option error]; [None] is [nil]. *)

From Stdlib Require Import ZArith String Bool List Lia.
Import ListNotations.

Local Open Scope string_scope.
Local Open Scope Z_scope.

(** ** Signed 64-bit integers *)

Module Int64.

Definition min_int : Z := - 2 ^ 63.
Definition max_int : Z := 2 ^ 63 - 1.

Definition in_range (z : Z) : Prop := min_int <= z <= max_int.

(** Two's complement wrap-around of an unbounded result. *)
Definition wrap (z : Z) : Z := (z + 2 ^ 63) mod 2 ^ 64 - 2 ^ 63.

(** Go's [a - b] on [int64]. *)
Definition sub (a b : Z) : Z := wrap (a - b).

End Int64.

(** ** Pointer-receiver methods

    [method S A] is a computation over a receiver of type [S]: given the
    reading of the clock and the receiver as it is before the call, it
    yields the returned value and the receiver as the call leaves it. *)

Section Receiver.

Context {S : Type}.

Definition method (A : Type) : Type := Z -> S -> A * S.

Definition ret {A : Type} (a : A) : method A :=
  fun _ s => (a, s).

Definition bind {A B : Type} (m : method A) (k : A -> method B) : method B :=
  fun now s => let (a, s') := m now s in k a now s'.

(** [j.f] read from the receiver. *)
Definition load {A : Type} (f : S -> A) : method A :=
  fun _ s => (f s, s).

(** [j.f = v], as an update of the receiver. *)
Definition store (upd : S -> S) : method unit :=
  fun _ s => (tt, upd s).

(** [time.Now().Unix()]. *)
Definition time_Now_Unix : method Z :=
  fun now s => (now, s).

End Receiver.

Arguments method : clear implicits.

Notation "x <- c ;; k" := (bind c (fun x => k))
  (at level 61, c at next level, right associativity).
Notation "c ;; k" := (bind c (fun _ => k))
  (at level 61, right associativity).

(** The value a call returns and the receiver it leaves behind. *)
Definition result {S A : Type} (r : A * S) : A := fst r.
Definition after {S A : Type} (r : A * S) : S := snd r.

(** ** States *)

Definition State : Type := Z.

Definition READY : State := 0.
Definition DELAYED : State := 1.
Definition RESERVED : State := 2.
Definition BURIED : State := 3.

(** The values of [State] that have a name. *)
Definition named (s : State) : Prop :=
  s = READY \/ s = DELAYED \/ s = RESERVED \/ s = BURIED.

(** ** Errors: the value built by [errors.New] *)

Inductive error : Type :=
| errors_New (text : string).

(** The four errors [SetState] builds, named after the target of the call
    that returns them. *)
Definition ErrREADY : error := errors_New "Invalid state transition to READY".
Definition ErrDELAYED : error := errors_New "Invalid state transition to RESERVED".
Definition ErrRESERVED : error := errors_New "Invalid state transition to RESERVED".
Definition ErrBURIED : error := errors_New "Invalid state transition to BURIED".

(** ** Channels: a [chan T] value is a reference, possibly nil *)

Inductive chan (T : Type) : Type :=
| chan_nil
| chan_ref (addr : positive).

Arguments chan_nil {T}.
Arguments chan_ref {T} addr.

(** ** Job *)

Module Job.

Record Job : Type := mk {
  id : string;
  Pri : Z;
  Delay : Z;
  StartedDelayAt : Z;
  StartedTTRAt : Z;
  TTR : Z;
  Bytes : Z;
  Data : string;
  state : State
}.

(** [new(Job)]: every field holds its zero value. *)
Definition zero : Job := mk EmptyString 0 0 0 0 0 0 EmptyString READY.

Definition set_id (v : string) (j : Job) : Job :=
  mk v (Pri j) (Delay j) (StartedDelayAt j) (StartedTTRAt j) (TTR j)
     (Bytes j) (Data j) (state j).

Definition set_Pri (v : Z) (j : Job) : Job :=
  mk (id j) v (Delay j) (StartedDelayAt j) (StartedTTRAt j) (TTR j)
     (Bytes j) (Data j) (state j).

Definition set_Delay (v : Z) (j : Job) : Job :=
  mk (id j) (Pri j) v (StartedDelayAt j) (StartedTTRAt j) (TTR j)
     (Bytes j) (Data j) (state j).

Definition set_StartedDelayAt (v : Z) (j : Job) : Job :=
  mk (id j) (Pri j) (Delay j) v (StartedTTRAt j) (TTR j)
     (Bytes j) (Data j) (state j).

Definition set_StartedTTRAt (v : Z) (j : Job) : Job :=
  mk (id j) (Pri j) (Delay j) (StartedDelayAt j) v (TTR j)
     (Bytes j) (Data j) (state j).

Definition set_TTR (v : Z) (j : Job) : Job :=
  mk (id j) (Pri j) (Delay j) (StartedDelayAt j) (StartedTTRAt j) v
     (Bytes j) (Data j) (state j).

Definition set_Bytes (v : Z) (j : Job) : Job :=
  mk (id j) (Pri j) (Delay j) (StartedDelayAt j) (StartedTTRAt j) (TTR j)
     v (Data j) (state j).

Definition set_Data (v : string) (j : Job) : Job :=
  mk (id j) (Pri j) (Delay j) (StartedDelayAt j) (StartedTTRAt j) (TTR j)
     (Bytes j) v (state j).

Definition set_state (v : State) (j : Job) : Job :=
  mk (id j) (Pri j) (Delay j) (StartedDelayAt j) (StartedTTRAt j) (TTR j)
     (Bytes j) (Data j) v.

(** [func (j *Job) SetState(state State) error] *)
Definition SetState (state' : State) : method Job (option error) :=
  if state' =? READY then
    cur <- load state ;;
    if (cur =? RESERVED) || (cur =? DELAYED) || (cur =? BURIED) then
      store (set_state state') ;;
      ret None
    else
      ret (Some (errors_New "Invalid state transition to READY"))
  else if state' =? DELAYED then
    cur <- load state ;;
    if cur =? RESERVED then
      store (set_state state') ;;
      t <- time_Now_Unix ;;
      store (set_StartedDelayAt t) ;;
      ret None
    else
      ret (Some (errors_New "Invalid state transition to RESERVED"))
  else if state' =? RESERVED then
    cur <- load state ;;
    if cur =? READY then
      store (set_state state') ;;
      t <- time_Now_Unix ;;
      store (set_StartedTTRAt t) ;;
      ret None
    else
      ret (Some (errors_New "Invalid state transition to RESERVED"))
  else if state' =? BURIED then
    cur <- load state ;;
    if cur =? RESERVED then
      store (set_state state') ;;
      ret None
    else
      ret (Some (errors_New "Invalid state transition to BURIED"))
  else
    ret None.

(** [func (j *Job) State() State] *)
Definition State : method Job State :=
  load state.

(** [func (j *Job) Key() int64] *)
Definition Key : method Job Z :=
  cur <- load state ;;
  if cur =? READY then
    load Pri
  else if cur =? DELAYED then
    d <- load Delay ;;
    t <- time_Now_Unix ;;
    s <- load StartedDelayAt ;;
    ret (Int64.sub d (Int64.sub t s))
  else if cur =? RESERVED then
    d <- load TTR ;;
    t <- time_Now_Unix ;;
    s <- load StartedTTRAt ;;
    ret (Int64.sub d (Int64.sub t s))
  else
    ret 0.

(** [func (j *Job) Id() string] *)
Definition Id : method Job string :=
  load id.

End Job.

Abbreviation Job := Job.Job.

(** [func NewJob(id string, pri, delay, ttr, bytes int64, data string) *Job] *)
Definition NewJob (id : string) (pri delay ttr bytes : Z) (data : string) : Job :=
  let j := Job.zero in
  let j := Job.set_id id j in
  let j := Job.set_Pri pri j in
  let j := Job.set_Delay delay j in
  let j := Job.set_TTR ttr j in
  let j := Job.set_Bytes bytes j in
  let j := Job.set_Data data j in
  if Job.Delay j <=? 0 then Job.set_state READY j
  else Job.set_state DELAYED j.

(** ** AwaitingClient *)

Module AwaitingClient.

Record AwaitingClient : Type := mk {
  id : string;
  SendChannel : chan Job
}.

(** [func (w *AwaitingClient) Key() int64] *)
Definition Key : method AwaitingClient Z :=
  ret 0.

(** [func (w *AwaitingClient) Id() string] *)
Definition Id : method AwaitingClient string :=
  load id.

End AwaitingClient.

Abbreviation AwaitingClient := AwaitingClient.AwaitingClient.

(** [func NewAwaitingClient(sendChannel chan Job) *AwaitingClient]; the
    identifier drawn by [uuid.NewV1().String()] is an argument. *)
Definition NewAwaitingClient (uuid : string) (sendChannel : chan Job)
  : AwaitingClient :=
  AwaitingClient.mk uuid sendChannel.

(** ** Life cycle

    What a job may become: it is built by [NewJob], its state is changed by
    [SetState] only (the field is not exported), and any package may assign
    its exported fields. *)

Definition same_private (j j' : Job) : Prop :=
  Job.id j' = Job.id j /\ Job.state j' = Job.state j.

Inductive reachable : Job -> Prop :=
| reach_NewJob id pri delay ttr bytes data :
    reachable (NewJob id pri delay ttr bytes data)
| reach_SetState now st j :
    reachable j -> reachable (after (Job.SetState st now j))
| reach_assign j j' :
    reachable j -> same_private j j' -> reachable j'.

(** The edges of the life-cycle diagram drawn above [SetState]: the state a
    job is in, and the state it is set to. *)
Inductive edge : State -> State -> Prop :=
| edge_release : edge RESERVED READY
| edge_time_passes : edge DELAYED READY
| edge_kick : edge BURIED READY
| edge_release_with_delay : edge RESERVED DELAYED
| edge_reserve : edge READY RESERVED
| edge_bury : edge RESERVED BURIED.

(** ** Sequences of calls

    A caller that drives one job through several [SetState] calls, each
    entry giving the reading of the clock at the time of the call and the
    target. The value each call returns is kept, in order, beside the job
    as the last call leaves it. *)
Fixpoint SetStates (calls : list (Z * State)) (j : Job)
  : list (option error) * Job :=
  match calls with
  | [] => ([], j)
  | (now, st) :: rest =>
      let r := Job.SetState st now j in
      let (es, j') := SetStates rest (after r) in
      (result r :: es, j')
  end.

(** A walk along the edges of the diagram: from [s] through the targets in
    order. *)
Fixpoint path (s : State) (targets : list State) : Prop :=
  match targets with
  | [] => True
  | t :: rest => edge s t /\ path t rest
  end.

(** The two subtractions of [Key], for a span that started at [started],
    do not overflow when the clock reads [now]. *)
Definition elapsed_fits (span now started : Z) : Prop :=
  Int64.in_range (now - started) /\ Int64.in_range (span - (now - started)).

(** [Key] computes without overflow on [j] when the clock reads [now]. *)
Definition Key_fits (now : Z) (j : Job) : Prop :=
  (Job.state j = DELAYED ->
     elapsed_fits (Job.Delay j) now (Job.StartedDelayAt j)) /\
  (Job.state j = RESERVED ->
     elapsed_fits (Job.TTR j) now (Job.StartedTTRAt j)).

(** * Properties *)

(** ** Arithmetic on [int64] *)

Lemma Int64_wrap_in_range (z : Z) : Int64.in_range (Int64.wrap z).
Proof.
  unfold Int64.in_range, Int64.wrap, Int64.min_int, Int64.max_int.
  pose proof (Z.mod_pos_bound (z + 2 ^ 63) (2 ^ 64) ltac:(lia)).
  lia.
Qed.

Lemma Int64_wrap_exact (z : Z) : Int64.in_range z -> Int64.wrap z = z.
Proof.
  unfold Int64.in_range, Int64.wrap, Int64.min_int, Int64.max_int.
  intros Hz.
  rewrite Z.mod_small by lia.
  lia.
Qed.

Lemma Int64_sub_exact (a b : Z) : Int64.in_range (a - b) -> Int64.sub a b = a - b.
Proof. apply Int64_wrap_exact. Qed.

(** ** The four constants are distinct *)

Lemma State_constants_distinct :
  READY <> DELAYED /\ READY <> RESERVED /\ READY <> BURIED /\
  DELAYED <> RESERVED /\ DELAYED <> BURIED /\ RESERVED <> BURIED.
Proof. unfold READY, DELAYED, RESERVED, BURIED. lia. Qed.

(** ** What a call of [SetState] computes *)

Lemma SetState_READY_run (now : Z) (j : Job) :
  Job.SetState READY now j =
  if (Job.state j =? RESERVED) || (Job.state j =? DELAYED) || (Job.state j =? BURIED)
  then (None, Job.set_state READY j)
  else (Some ErrREADY, j).
Proof.
  unfold Job.SetState, bind, load, store, ret; simpl.
  now destruct ((_ =? _) || (_ =? _) || (_ =? _)).
Qed.

Lemma SetState_DELAYED_run (now : Z) (j : Job) :
  Job.SetState DELAYED now j =
  if Job.state j =? RESERVED
  then (None, Job.set_StartedDelayAt now (Job.set_state DELAYED j))
  else (Some ErrDELAYED, j).
Proof.
  unfold Job.SetState, bind, load, store, ret, time_Now_Unix; simpl.
  now destruct (_ =? _).
Qed.

Lemma SetState_RESERVED_run (now : Z) (j : Job) :
  Job.SetState RESERVED now j =
  if Job.state j =? READY
  then (None, Job.set_StartedTTRAt now (Job.set_state RESERVED j))
  else (Some ErrRESERVED, j).
Proof.
  unfold Job.SetState, bind, load, store, ret, time_Now_Unix; simpl.
  now destruct (_ =? _).
Qed.

Lemma SetState_BURIED_run (now : Z) (j : Job) :
  Job.SetState BURIED now j =
  if Job.state j =? RESERVED
  then (None, Job.set_state BURIED j)
  else (Some ErrBURIED, j).
Proof.
  unfold Job.SetState, bind, load, store, ret; simpl.
  now destruct (_ =? _).
Qed.

(** A target that is none of the four constants falls through the
    [switch]: nothing is written and [nil] is returned. *)
Lemma SetState_other_run (now : Z) (st : State) (j : Job) :
  ~ named st -> Job.SetState st now j = (None, j).
Proof.
  unfold named; intros Hst.
  unfold Job.SetState.
  destruct (Z.eqb_spec st READY); [tauto|].
  destruct (Z.eqb_spec st DELAYED); [tauto|].
  destruct (Z.eqb_spec st RESERVED); [tauto|].
  destruct (Z.eqb_spec st BURIED); [tauto|].
  reflexivity.
Qed.

Lemma named_dec (st : State) : {named st} + {~ named st}.
Proof.
  unfold named.
  destruct (Z.eq_dec st READY); [now left; left|].
  destruct (Z.eq_dec st DELAYED); [now left; right; left|].
  destruct (Z.eq_dec st RESERVED); [now left; right; right; left|].
  destruct (Z.eq_dec st BURIED); [now left; right; right; right|].
  right; tauto.
Qed.

(** The five shapes of a call, by target. *)
Ltac SetState_cases st now j :=
  destruct (named_dec st) as [[-> | [-> | [-> | ->]]] | ?];
  [ rewrite (SetState_READY_run now j)
  | rewrite (SetState_DELAYED_run now j)
  | rewrite (SetState_RESERVED_run now j)
  | rewrite (SetState_BURIED_run now j)
  | rewrite (SetState_other_run now st j) by assumption ].

(** ** The state of a job is always one of the four constants *)

Lemma NewJob_state (id : string) (pri delay ttr bytes : Z) (data : string) :
  Job.state (NewJob id pri delay ttr bytes data) =
  if delay <=? 0 then READY else DELAYED.
Proof. unfold NewJob; simpl. now destruct (delay <=? 0). Qed.

Lemma SetState_state (now : Z) (st : State) (j : Job) :
  Job.state (after (Job.SetState st now j)) = Job.state j \/
  named st /\ Job.state (after (Job.SetState st now j)) = st.
Proof.
  unfold named.
  SetState_cases st now j;
    try match goal with |- context [if ?b then _ else _] => destruct b end;
    simpl; auto 8.
Qed.

Lemma reachable_named (j : Job) : reachable j -> named (Job.state j).
Proof.
  induction 1 as [id pri delay ttr bytes data | now st j Hj IH | j j' Hj IH [_ Hst]].
  - rewrite NewJob_state. unfold named. destruct (delay <=? 0); auto.
  - destruct (SetState_state now st j) as [-> | [Hn ->]]; assumption.
  - now rewrite Hst.
Qed.

(** ** Transitions to READY *)

Lemma READY_sources_true (s : State) :
  (s =? RESERVED) || (s =? DELAYED) || (s =? BURIED) = true <->
  s = RESERVED \/ s = DELAYED \/ s = BURIED.
Proof.
  rewrite !orb_true_iff, !Z.eqb_eq. tauto.
Qed.

Lemma SetState_READY_nil_iff (now : Z) (j : Job) :
  result (Job.SetState READY now j) = None <->
  Job.state j = RESERVED \/ Job.state j = DELAYED \/ Job.state j = BURIED.
Proof.
  rewrite SetState_READY_run, <- READY_sources_true.
  destruct (_ || _ || _); simpl; split; congruence.
Qed.

(** C1. [SetState(READY)] returns [nil] exactly when the job is RESERVED,
    DELAYED or BURIED, and the job is then READY; from every other state
    it returns the error "Invalid state transition to READY", and for a job
    of the life cycle that other state is READY itself. *)
Theorem SetState_READY_sources (now : Z) (j : Job) :
  (result (Job.SetState READY now j) = None <->
     Job.state j = RESERVED \/ Job.state j = DELAYED \/ Job.state j = BURIED) /\
  (result (Job.SetState READY now j) = None ->
     Job.state (after (Job.SetState READY now j)) = READY) /\
  (result (Job.SetState READY now j) <> None ->
     result (Job.SetState READY now j) = Some ErrREADY) /\
  (reachable j ->
     (result (Job.SetState READY now j) = Some ErrREADY <-> Job.state j = READY)).
Proof.
  rewrite SetState_READY_run.
  pose proof (READY_sources_true (Job.state j)) as Hsrc.
  destruct ((Job.state j =? RESERVED) || (Job.state j =? DELAYED) ||
            (Job.state j =? BURIED)); unfold result, after; simpl.
  - (* the transition is taken *)
    assert (Hin : Job.state j = RESERVED \/ Job.state j = DELAYED \/
                  Job.state j = BURIED) by now apply Hsrc.
    split; [tauto|]. split; [reflexivity|]. split; [congruence|].
    intros _; split; [discriminate|].
    intros Hready; rewrite Hready in Hin.
    unfold READY, DELAYED, RESERVED, BURIED in Hin; lia.
  - (* the transition is refused *)
    assert (Hout : ~ (Job.state j = RESERVED \/ Job.state j = DELAYED \/
                      Job.state j = BURIED)).
    { intros Hin; apply Hsrc in Hin; discriminate Hin. }
    split; [split; [discriminate | tauto]|].
    split; [discriminate|]. split; [reflexivity|].
    intros Hj; apply reachable_named in Hj; unfold named in Hj.
    tauto.
Qed.

(** A reserved job that is released. *)
Lemma SetState_READY_sources_witness :
  result (Job.SetState READY 1700000060 (Job.mk "7" 5 0 0 1700000000 60 1 "x" RESERVED)) = None /\
  Job.state (after (Job.SetState READY 1700000060 (Job.mk "7" 5 0 0 1700000000 60 1 "x" RESERVED))) = READY.
Proof.
  destruct (SetState_READY_sources 1700000060 (Job.mk "7" 5 0 0 1700000000 60 1 "x" RESERVED))
    as [[_ Hok] [Hst _]].
  assert (Hnil := Hok (or_introl eq_refl)).
  exact (conj Hnil (Hst Hnil)).
Defined.

(** ** Transitions to RESERVED *)

(** C2. [SetState(RESERVED)] returns [nil] exactly when the job is READY;
    the job is then RESERVED and [StartedTTRAt] holds the time of the
    call; from every other state it returns an error. *)
Theorem SetState_RESERVED_from_READY (now : Z) (j : Job) :
  (result (Job.SetState RESERVED now j) = None <-> Job.state j = READY) /\
  (Job.state j = READY ->
     Job.state (after (Job.SetState RESERVED now j)) = RESERVED /\
     Job.StartedTTRAt (after (Job.SetState RESERVED now j)) = now) /\
  (Job.state j <> READY ->
     result (Job.SetState RESERVED now j) = Some ErrRESERVED).
Proof.
  rewrite SetState_RESERVED_run.
  destruct (Z.eqb_spec (Job.state j) READY) as [Heq | Hne].
  - repeat split; auto. contradiction.
  - repeat split; try contradiction; auto. discriminate.
Qed.

(** A job put without delay, reserved one second later. *)
Lemma SetState_RESERVED_from_READY_witness :
  Job.state (after (Job.SetState RESERVED 1700000001 (NewJob "7" 5 0 60 1 "x"))) = RESERVED /\
  Job.StartedTTRAt (after (Job.SetState RESERVED 1700000001 (NewJob "7" 5 0 60 1 "x"))) = 1700000001.
Proof.
  exact (proj1 (proj2 (SetState_RESERVED_from_READY 1700000001 (NewJob "7" 5 0 60 1 "x")))
               eq_refl).
Defined.

(** ** Transitions to DELAYED *)

(** C3. [SetState(DELAYED)] returns [nil] exactly when the job is RESERVED;
    the job is then DELAYED and [StartedDelayAt] holds the time of the
    call; from every other state it returns an error. *)
Theorem SetState_DELAYED_from_RESERVED (now : Z) (j : Job) :
  (result (Job.SetState DELAYED now j) = None <-> Job.state j = RESERVED) /\
  (Job.state j = RESERVED ->
     Job.state (after (Job.SetState DELAYED now j)) = DELAYED /\
     Job.StartedDelayAt (after (Job.SetState DELAYED now j)) = now) /\
  (Job.state j <> RESERVED ->
     result (Job.SetState DELAYED now j) = Some ErrDELAYED).
Proof.
  rewrite SetState_DELAYED_run.
  case (Z.eqb_spec (Job.state j) RESERVED); intros Hst; simpl.
  - split; [tauto|]. split; [intros _; split; reflexivity | tauto].
  - split; [split; [discriminate | tauto]|].
    split; [tauto | reflexivity].
Qed.

(** A reserved job released with a delay. *)
Lemma SetState_DELAYED_from_RESERVED_witness :
  Job.state (after (Job.SetState DELAYED 1700000030
                      (Job.mk "7" 5 10 0 1700000000 60 1 "x" RESERVED))) = DELAYED /\
  Job.StartedDelayAt (after (Job.SetState DELAYED 1700000030
                      (Job.mk "7" 5 10 0 1700000000 60 1 "x" RESERVED))) = 1700000030.
Proof.
  apply (SetState_DELAYED_from_RESERVED 1700000030
           (Job.mk "7" 5 10 0 1700000000 60 1 "x" RESERVED)).
  reflexivity.
Defined.

(** ** Transitions to BURIED *)

(** C4. [SetState(BURIED)] returns [nil] exactly when the job is RESERVED,
    and the job is then BURIED; from every other state it returns an
    error. A DELAYED job cannot be buried and a BURIED job cannot be
    reserved: both calls return an error and the job stays where it is. *)
Theorem SetState_BURIED_from_RESERVED (now : Z) (j : Job) :
  (result (Job.SetState BURIED now j) = None <-> Job.state j = RESERVED) /\
  (Job.state j = RESERVED ->
     Job.state (after (Job.SetState BURIED now j)) = BURIED) /\
  (Job.state j <> RESERVED ->
     result (Job.SetState BURIED now j) = Some ErrBURIED) /\
  (Job.state j = DELAYED ->
     result (Job.SetState BURIED now j) = Some ErrBURIED /\
     Job.state (after (Job.SetState BURIED now j)) = DELAYED) /\
  (Job.state j = BURIED ->
     result (Job.SetState RESERVED now j) = Some ErrRESERVED /\
     Job.state (after (Job.SetState RESERVED now j)) = BURIED).
Proof.
  destruct State_constants_distinct as (_ & _ & Hrb & Hdr & _ & _).
  rewrite SetState_BURIED_run, SetState_RESERVED_run.
  destruct (Z.eqb_spec (Job.state j) RESERVED) as [Hres | Hres]; simpl.
  - split; [tauto|]. split; [reflexivity|]. split; [tauto|].
    split; intros Hst; rewrite Hst in Hres.
    + now apply Hdr in Hres.
    + unfold BURIED, RESERVED in Hres; discriminate Hres.
  - split; [split; [discriminate | tauto]|].
    split; [tauto|]. split; [reflexivity|].
    split; intros Hst; [now split|].
    destruct (Z.eqb_spec (Job.state j) READY) as [Hready | _]; [|now split].
    rewrite Hready in Hst. now apply Hrb in Hst.
Qed.

(** A delayed job, as [put] with a delay of ten seconds leaves it. *)
Lemma SetState_BURIED_from_RESERVED_witness :
  result (Job.SetState BURIED 1700000005 (NewJob "7" 5 10 60 1 "x")) = Some ErrBURIED /\
  Job.state (after (Job.SetState BURIED 1700000005 (NewJob "7" 5 10 60 1 "x"))) = DELAYED.
Proof.
  apply (SetState_BURIED_from_RESERVED 1700000005 (NewJob "7" 5 10 60 1 "x")).
  reflexivity.
Defined.

(** ** Refused transitions *)

Lemma edge_inv (s t : State) :
  edge s t ->
  t = READY /\ (s = RESERVED \/ s = DELAYED \/ s = BURIED) \/
  t = DELAYED /\ s = RESERVED \/
  t = RESERVED /\ s = READY \/
  t = BURIED /\ s = RESERVED.
Proof. destruct 1; tauto. Qed.

(** For a target that has a name, [SetState] returns [nil] exactly along
    the edges of the diagram. *)
Lemma SetState_nil_iff_edge (now : Z) (st : State) (j : Job) :
  named st ->
  (result (Job.SetState st now j) = None <-> edge (Job.state j) st).
Proof.
  destruct State_constants_distinct as (H01 & H02 & H03 & H12 & H13 & H23).
  intros [-> | [-> | [-> | ->]]]; split.
  - intros H; apply SetState_READY_nil_iff in H.
    destruct H as [-> | [-> | ->]]; constructor.
  - intros H; apply SetState_READY_nil_iff.
    apply edge_inv in H. intuition congruence.
  - rewrite SetState_DELAYED_run.
    destruct (Z.eqb_spec (Job.state j) RESERVED) as [-> | ?];
      [constructor | discriminate].
  - intros H; apply edge_inv in H.
    rewrite SetState_DELAYED_run.
    destruct (Z.eqb_spec (Job.state j) RESERVED); [reflexivity|].
    intuition congruence.
  - rewrite SetState_RESERVED_run.
    destruct (Z.eqb_spec (Job.state j) READY) as [-> | ?];
      [constructor | discriminate].
  - intros H; apply edge_inv in H.
    rewrite SetState_RESERVED_run.
    destruct (Z.eqb_spec (Job.state j) READY); [reflexivity|].
    intuition congruence.
  - rewrite SetState_BURIED_run.
    destruct (Z.eqb_spec (Job.state j) RESERVED) as [-> | ?];
      [constructor | discriminate].
  - intros H; apply edge_inv in H.
    rewrite SetState_BURIED_run.
    destruct (Z.eqb_spec (Job.state j) RESERVED); [reflexivity|].
    intuition congruence.
Qed.

(** A call that returns an error has written nothing. *)
Lemma SetState_error_no_write (now : Z) (st : State) (j : Job) (e : error) :
  result (Job.SetState st now j) = Some e -> after (Job.SetState st now j) = j.
Proof.
  SetState_cases st now j;
    try (destruct (_ || _ || _)); try (destruct (_ =? _));
    simpl; intros H; (reflexivity || discriminate H).
Qed.

(** C5. Whenever [SetState] returns an error, the pair of the job's state
    and the target is no edge of the diagram, and the call leaves the
    state (indeed the whole job) as it was. *)
Theorem SetState_error_keeps_state (now : Z) (st : State) (j : Job) (e : error) :
  result (Job.SetState st now j) = Some e ->
  ~ edge (Job.state j) st /\
  Job.state (after (Job.SetState st now j)) = Job.state j /\
  after (Job.SetState st now j) = j.
Proof.
  intros Herr.
  pose proof (SetState_error_no_write now st j e Herr) as Hj.
  split; [|split; [now rewrite Hj | exact Hj]].
  intros Hedge.
  assert (Hnamed : named st).
  { unfold named. apply edge_inv in Hedge. tauto. }
  apply (SetState_nil_iff_edge now st j Hnamed) in Hedge.
  rewrite Hedge in Herr. discriminate Herr.
Qed.

(** Burying a job that was never reserved. *)
Lemma SetState_error_keeps_state_witness :
  result (Job.SetState BURIED 1700000001 (NewJob "7" 5 0 60 1 "x")) = Some ErrBURIED /\
  Job.state (after (Job.SetState BURIED 1700000001 (NewJob "7" 5 0 60 1 "x"))) = READY.
Proof.
  split; [reflexivity|].
  exact (proj1 (proj2 (SetState_error_keeps_state 1700000001 BURIED
                         (NewJob "7" 5 0 60 1 "x") ErrBURIED eq_refl))).
Defined.

(** ** Creation *)

(** C6. A job built by [NewJob] is READY when the delay is at most 0 and
    DELAYED when the delay is positive, whatever the other arguments. *)
Theorem NewJob_initial_state (id : string) (pri delay ttr bytes : Z) (data : string) :
  (delay <= 0 -> Job.state (NewJob id pri delay ttr bytes data) = READY) /\
  (0 < delay -> Job.state (NewJob id pri delay ttr bytes data) = DELAYED).
Proof.
  rewrite NewJob_state.
  destruct (Z.leb_spec delay 0); split; intros; (reflexivity || lia).
Qed.

(** The two jobs of the scenarios: no delay, and a delay of two seconds. *)
Lemma NewJob_initial_state_witness :
  Job.state (NewJob "1" 5 0 60 1 "x") = READY /\
  Job.state (NewJob "2" 1 2 60 1 "y") = DELAYED.
Proof.
  split.
  - apply (NewJob_initial_state "1" 5 0 60 1 "x"). lia.
  - apply (NewJob_initial_state "2" 1 2 60 1 "y"). lia.
Defined.

(** [NewJob] copies its arguments and leaves both timestamps at zero. *)
Lemma NewJob_fields (id : string) (pri delay ttr bytes : Z) (data : string) :
  NewJob id pri delay ttr bytes data =
  Job.mk id pri delay 0 0 ttr bytes data (if delay <=? 0 then READY else DELAYED).
Proof. unfold NewJob; simpl. now destruct (delay <=? 0). Qed.

(** ** The priority key *)

Lemma Key_run (now : Z) (j : Job) :
  Job.Key now j =
  (if Job.state j =? READY then Job.Pri j
   else if Job.state j =? DELAYED then
     Int64.sub (Job.Delay j) (Int64.sub now (Job.StartedDelayAt j))
   else if Job.state j =? RESERVED then
     Int64.sub (Job.TTR j) (Int64.sub now (Job.StartedTTRAt j))
   else 0,
   j).
Proof.
  unfold Job.Key, bind, load, ret, time_Now_Unix.
  destruct (Job.state j =? READY); [reflexivity|].
  destruct (Job.state j =? DELAYED); [reflexivity|].
  destruct (Job.state j =? RESERVED); reflexivity.
Qed.

(** The key is an [int64] whenever the priority is one. *)
Lemma Key_in_range (now : Z) (j : Job) :
  Int64.in_range (Job.Pri j) -> Int64.in_range (result (Job.Key now j)).
Proof.
  intros Hpri. rewrite Key_run; unfold result; simpl.
  destruct (Job.state j =? READY); [exact Hpri|].
  destruct (Job.state j =? DELAYED); [apply Int64_wrap_in_range|].
  destruct (Job.state j =? RESERVED); [apply Int64_wrap_in_range|].
  unfold Int64.in_range, Int64.min_int, Int64.max_int; lia.
Qed.

(** C8. [Key] returns the priority of a READY job, the delay minus the time
    elapsed since [StartedDelayAt] for a DELAYED job, and the time to run
    minus the time elapsed since [StartedTTRAt] for a RESERVED job. The
    subtractions are those of [int64]; whenever the two differences fit in
    64 bits the key is the exact integer value. *)
Theorem Key_by_state (now : Z) (j : Job) :
  (Job.state j = READY -> result (Job.Key now j) = Job.Pri j) /\
  (Job.state j = DELAYED ->
     result (Job.Key now j) =
     Int64.sub (Job.Delay j) (Int64.sub now (Job.StartedDelayAt j))) /\
  (Job.state j = RESERVED ->
     result (Job.Key now j) =
     Int64.sub (Job.TTR j) (Int64.sub now (Job.StartedTTRAt j))) /\
  (Job.state j = DELAYED ->
     Int64.in_range (now - Job.StartedDelayAt j) ->
     Int64.in_range (Job.Delay j - (now - Job.StartedDelayAt j)) ->
     result (Job.Key now j) = Job.Delay j - (now - Job.StartedDelayAt j)) /\
  (Job.state j = RESERVED ->
     Int64.in_range (now - Job.StartedTTRAt j) ->
     Int64.in_range (Job.TTR j - (now - Job.StartedTTRAt j)) ->
     result (Job.Key now j) = Job.TTR j - (now - Job.StartedTTRAt j)).
Proof.
  rewrite Key_run; unfold result; simpl.
  repeat split.
  - intros ->. reflexivity.
  - intros ->. reflexivity.
  - intros ->. reflexivity.
  - intros -> Hel Hkey.
    rewrite (Int64_sub_exact now _ Hel). now apply Int64_sub_exact.
  - intros -> Hel Hkey.
    rewrite (Int64_sub_exact now _ Hel). now apply Int64_sub_exact.
Qed.

(** A job delayed by ten seconds, four seconds after it was released, and a
    job reserved for a minute, a minute and a half after it was reserved. *)
Lemma Key_by_state_witness :
  result (Job.Key 1700000004 (Job.mk "7" 5 10 1700000000 0 60 1 "x" DELAYED)) = 6 /\
  result (Job.Key 1700000090 (Job.mk "8" 5 0 0 1700000000 60 1 "y" RESERVED)) = -30.
Proof.
  split.
  - apply (Key_by_state 1700000004 (Job.mk "7" 5 10 1700000000 0 60 1 "x" DELAYED));
      [reflexivity | |]; unfold Int64.in_range, Int64.min_int, Int64.max_int; simpl; lia.
  - apply (Key_by_state 1700000090 (Job.mk "8" 5 0 0 1700000000 60 1 "y" RESERVED));
      [reflexivity | |]; unfold Int64.in_range, Int64.min_int, Int64.max_int; simpl; lia.
Defined.

(** C9. [Key] returns 0 for every BURIED job, and for every awaiting
    client, whatever its identifier and channel. *)
Theorem Key_zero_BURIED_and_AwaitingClient :
  (forall (now : Z) (j : Job),
     Job.state j = BURIED -> result (Job.Key now j) = 0) /\
  (forall (now : Z) (w : AwaitingClient),
     result (AwaitingClient.Key now w) = 0).
Proof.
  split.
  - intros now j Hb. rewrite Key_run, Hb. reflexivity.
  - intros now [uuid ch]. reflexivity.
Qed.

(** A buried job of priority 5, and a client waiting on channel 1. *)
Lemma Key_zero_BURIED_and_AwaitingClient_witness :
  result (Job.Key 1700000000 (Job.mk "7" 5 10 0 1690000000 60 1 "x" BURIED)) = 0 /\
  result (AwaitingClient.Key 1700000000 (NewAwaitingClient "c1" (chan_ref 1))) = 0.
Proof.
  destruct Key_zero_BURIED_and_AwaitingClient as [Hjob Hclient].
  split; [apply Hjob; reflexivity | apply Hclient].
Defined.

(** ** What the methods write *)

(** The receiver after [SetState]: untouched, or with the new state, and
    with the timestamp of the state that was entered. *)
Lemma SetState_after_shape (now : Z) (st : State) (j : Job) :
  after (Job.SetState st now j) = j \/
  st <> DELAYED /\ st <> RESERVED /\
    after (Job.SetState st now j) = Job.set_state st j \/
  st = DELAYED /\
    after (Job.SetState st now j) = Job.set_StartedDelayAt now (Job.set_state st j) \/
  st = RESERVED /\
    after (Job.SetState st now j) = Job.set_StartedTTRAt now (Job.set_state st j).
Proof.
  destruct State_constants_distinct as (H01 & H02 & H03 & H12 & H13 & H23).
  SetState_cases st now j.
  - destruct (_ || _ || _); simpl; [right; left | left]; auto.
  - destruct (_ =? _); simpl; [right; right; left | left]; auto.
  - destruct (_ =? _); simpl; [right; right; right | left]; auto.
  - destruct (_ =? _); simpl; [right; left | left]; auto.
  - now left.
Qed.

(** C10. [SetState] never writes [id], [Pri], [Delay], [TTR], [Bytes] or
    [Data]; it writes [StartedDelayAt] only when it enters DELAYED and
    [StartedTTRAt] only when it enters RESERVED, and a timestamp that is
    written comes with a [nil] result; [Key], [State] and [Id] write
    nothing. *)
Theorem SetState_frame (now : Z) (st : State) (j : Job) :
  (Job.id (after (Job.SetState st now j)) = Job.id j /\
   Job.Pri (after (Job.SetState st now j)) = Job.Pri j /\
   Job.Delay (after (Job.SetState st now j)) = Job.Delay j /\
   Job.TTR (after (Job.SetState st now j)) = Job.TTR j /\
   Job.Bytes (after (Job.SetState st now j)) = Job.Bytes j /\
   Job.Data (after (Job.SetState st now j)) = Job.Data j) /\
  (Job.StartedDelayAt (after (Job.SetState st now j)) <> Job.StartedDelayAt j ->
     st = DELAYED /\ result (Job.SetState st now j) = None /\
     Job.StartedTTRAt (after (Job.SetState st now j)) = Job.StartedTTRAt j) /\
  (Job.StartedTTRAt (after (Job.SetState st now j)) <> Job.StartedTTRAt j ->
     st = RESERVED /\ result (Job.SetState st now j) = None /\
     Job.StartedDelayAt (after (Job.SetState st now j)) = Job.StartedDelayAt j) /\
  after (Job.Key now j) = j /\
  after (Job.State now j) = j /\
  after (Job.Id now j) = j.
Proof.
  assert (Hnil : after (Job.SetState st now j) <> j ->
                 result (Job.SetState st now j) = None).
  { intros Hw. destruct (result (Job.SetState st now j)) as [e|] eqn:Hres;
      [|reflexivity].
    elim Hw. now apply SetState_error_no_write with e. }
  split; [|split; [|split]].
  - destruct (SetState_after_shape now st j)
      as [-> | [(_ & _ & ->) | [(_ & ->) | (_ & ->)]]];
      repeat split; reflexivity.
  - intros Hts.
    destruct (SetState_after_shape now st j)
      as [Hj | [(_ & _ & Hj) | [(Hst & Hj) | (_ & Hj)]]];
      try (rewrite Hj in Hts; now elim Hts).
    split; [exact Hst|]. split; [|now rewrite Hj].
    apply Hnil. intros Heq. apply Hts. now rewrite Heq.
  - intros Hts.
    destruct (SetState_after_shape now st j)
      as [Hj | [(_ & _ & Hj) | [(_ & Hj) | (Hst & Hj)]]];
      try (rewrite Hj in Hts; now elim Hts).
    split; [exact Hst|]. split; [|now rewrite Hj].
    apply Hnil. intros Heq. apply Hts. now rewrite Heq.
  - rewrite Key_run. repeat split.
Qed.

(** Reserving a ready job: of the nine fields only the state and
    [StartedTTRAt] differ afterwards. *)
Lemma SetState_frame_witness :
  after (Job.SetState RESERVED 1700000001 (NewJob "7" 5 0 60 1 "x")) =
  Job.mk "7" 5 0 0 1700000001 60 1 "x" RESERVED /\
  Job.StartedDelayAt (after (Job.SetState RESERVED 1700000001 (NewJob "7" 5 0 60 1 "x"))) =
  Job.StartedDelayAt (NewJob "7" 5 0 60 1 "x").
Proof.
  split; [reflexivity|].
  apply (SetState_frame 1700000001 RESERVED (NewJob "7" 5 0 60 1 "x")).
  discriminate.
Defined.

(** ** Timestamps of the entered state *)

(** Every DELAYED or RESERVED state that [SetState] enters comes with its
    timestamp. *)
Lemma SetState_enters_with_timestamp (now : Z) (j : Job) :
  (result (Job.SetState DELAYED now j) = None ->
     Job.StartedDelayAt (after (Job.SetState DELAYED now j)) = now) /\
  (result (Job.SetState RESERVED now j) = None ->
     Job.StartedTTRAt (after (Job.SetState RESERVED now j)) = now).
Proof.
  rewrite SetState_DELAYED_run, SetState_RESERVED_run.
  split; destruct (_ =? _); simpl; (reflexivity || discriminate).
Qed.

(** C7. The job of [put(pri=1, delay=2, ttr=60, "y")] is DELAYED as soon as
    [NewJob] returns, yet its [StartedDelayAt] is the zero value and not
    the time of the call: [NewJob] never reads the clock. One second
    after a creation at 1700000000 its key is far below zero, as if the
    delay had long elapsed. *)
Theorem NewJob_DELAYED_without_timestamp :
  Job.state (NewJob "2" 1 2 60 1 "y") = DELAYED /\
  Job.StartedDelayAt (NewJob "2" 1 2 60 1 "y") = 0 /\
  Job.StartedDelayAt (NewJob "2" 1 2 60 1 "y") <> 1700000000 /\
  result (Job.Key 1700000001 (NewJob "2" 1 2 60 1 "y")) = 2 - 1700000001.
Proof.
  rewrite NewJob_fields; simpl.
  split; [reflexivity|]. split; [reflexivity|]. split; [discriminate|].
  reflexivity.
Qed.

(** * Further properties of the state machine *)

(** ** Targets without a name *)

(** A transition that is taken moves the job: no edge is a loop. *)
Lemma edge_irreflexive (s : State) : ~ edge s s.
Proof.
  intros H. apply edge_inv in H.
  unfold READY, DELAYED, RESERVED, BURIED in H. lia.
Qed.

Lemma SetState_nil_state (now : Z) (st : State) (j : Job) :
  named st -> result (Job.SetState st now j) = None ->
  Job.state (after (Job.SetState st now j)) = st.
Proof.
  intros Hst.
  destruct Hst as [-> | [-> | [-> | ->]]];
    [ rewrite SetState_READY_run; destruct (_ || _ || _)
    | rewrite SetState_DELAYED_run; destruct (_ =? _)
    | rewrite SetState_RESERVED_run; destruct (_ =? _)
    | rewrite SetState_BURIED_run; destruct (_ =? _) ];
    simpl; intros H; (reflexivity || discriminate H).
Qed.

(** X1. [SetState] returns [nil] and leaves the job exactly as it was if
    and only if the target is none of the four constants: such a call falls
    through the [switch] without a word, while a call with a named target
    either moves the job or returns an error. *)
Theorem SetState_silent_iff_unnamed (now : Z) (st : State) (j : Job) :
  result (Job.SetState st now j) = None /\ after (Job.SetState st now j) = j <->
  ~ named st.
Proof.
  split.
  - intros [Hnil Hsame] Hst.
    pose proof (SetState_nil_state now st j Hst Hnil) as Hmoved.
    rewrite Hsame in Hmoved.
    apply (SetState_nil_iff_edge now st j Hst) in Hnil.
    rewrite Hmoved in Hnil.
    now apply edge_irreflexive in Hnil.
  - intros Hst. now rewrite (SetState_other_run now st j Hst).
Qed.

(** The target [State(7)] on a job that was just put. *)
Lemma SetState_silent_iff_unnamed_witness :
  result (Job.SetState 7 1700000001 (NewJob "7" 5 0 60 1 "x")) = None /\
  after (Job.SetState 7 1700000001 (NewJob "7" 5 0 60 1 "x")) = NewJob "7" 5 0 60 1 "x".
Proof.
  apply (SetState_silent_iff_unnamed 1700000001 7 (NewJob "7" 5 0 60 1 "x")).
  unfold named, READY, DELAYED, RESERVED, BURIED. lia.
Defined.

(** ** Repeated calls *)

(** X2. The same named target twice in a row: whatever the first call did,
    the second returns an error and changes nothing. *)
Theorem SetState_repeated_target_refused
  (now now' : Z) (st : State) (j : Job) :
  named st ->
  (exists e, result (Job.SetState st now' (after (Job.SetState st now j))) = Some e) /\
  after (Job.SetState st now' (after (Job.SetState st now j))) =
  after (Job.SetState st now j).
Proof.
  intros Hst.
  assert (Hrefused : result (Job.SetState st now' (after (Job.SetState st now j))) <> None).
  { intros Hnil2.
    apply (SetState_nil_iff_edge now' st _ Hst) in Hnil2.
    destruct (result (Job.SetState st now j)) as [e|] eqn:Hfirst.
    - (* the first call was refused: the job did not move *)
      rewrite (SetState_error_no_write now st j e Hfirst) in Hnil2.
      apply (SetState_nil_iff_edge now st j Hst) in Hnil2. congruence.
    - (* the first call was taken: the job is already there *)
      rewrite (SetState_nil_state now st j Hst Hfirst) in Hnil2.
      now apply edge_irreflexive in Hnil2. }
  destruct (result (Job.SetState st now' (after (Job.SetState st now j))))
    as [e|] eqn:Hsecond; [|now elim Hrefused].
  split; [now exists e|].
  now apply SetState_error_no_write with e.
Qed.

(** Reserving a job that the previous call reserved. *)
Lemma SetState_repeated_target_refused_witness :
  exists e,
    result (Job.SetState RESERVED 1700000002
              (after (Job.SetState RESERVED 1700000001 (NewJob "7" 5 0 60 1 "x")))) = Some e.
Proof.
  apply (SetState_repeated_target_refused 1700000001 1700000002 RESERVED
           (NewJob "7" 5 0 60 1 "x")).
  unfold named. tauto.
Defined.

(** ** The text of the errors *)



(** ** Sequences of calls *)

Lemma SetStates_cons (now : Z) (st : State) (rest : list (Z * State)) (j : Job) :
  result (SetStates ((now, st) :: rest) j) =
    result (Job.SetState st now j) ::
    result (SetStates rest (after (Job.SetState st now j))) /\
  after (SetStates ((now, st) :: rest) j) =
    after (SetStates rest (after (Job.SetState st now j))).
Proof.
  simpl. destruct (SetStates rest (after (Job.SetState st now j))). now split.
Qed.

Lemma SetState_keeps_arguments (now : Z) (st : State) (j : Job) :
  Job.id (after (Job.SetState st now j)) = Job.id j /\
  Job.Pri (after (Job.SetState st now j)) = Job.Pri j /\
  Job.Delay (after (Job.SetState st now j)) = Job.Delay j /\
  Job.TTR (after (Job.SetState st now j)) = Job.TTR j /\
  Job.Bytes (after (Job.SetState st now j)) = Job.Bytes j /\
  Job.Data (after (Job.SetState st now j)) = Job.Data j.
Proof.
  destruct (SetState_after_shape now st j)
    as [-> | [(_ & _ & ->) | [(_ & ->) | (_ & ->)]]];
    repeat split; reflexivity.
Qed.

Lemma SetStates_keep_arguments (calls : list (Z * State)) (j : Job) :
  Job.id (after (SetStates calls j)) = Job.id j /\
  Job.Pri (after (SetStates calls j)) = Job.Pri j /\
  Job.Delay (after (SetStates calls j)) = Job.Delay j /\
  Job.TTR (after (SetStates calls j)) = Job.TTR j /\
  Job.Bytes (after (SetStates calls j)) = Job.Bytes j /\
  Job.Data (after (SetStates calls j)) = Job.Data j.
Proof.
  revert j. induction calls as [| [now st] rest IH]; intros j.
  - repeat split; reflexivity.
  - destruct (SetStates_cons now st rest j) as [_ ->].
    destruct (IH (after (Job.SetState st now j))) as (-> & -> & -> & -> & -> & ->).
    apply SetState_keeps_arguments.
Qed.

Lemma SetStates_named (calls : list (Z * State)) (j : Job) :
  named (Job.state j) -> named (Job.state (after (SetStates calls j))).
Proof.
  revert j. induction calls as [| [now st] rest IH]; intros j Hj.
  - exact Hj.
  - destruct (SetStates_cons now st rest j) as [_ ->].
    apply IH.
    destruct (SetState_state now st j) as [-> | [Hst ->]]; assumption.
Qed.

(** X4. However many [SetState] calls a job goes through after [NewJob],
    and whatever they return, [Id] still returns the identifier it was
    created with, the priority, delay, time to run, size and body are those
    given to [NewJob], and [State] returns one of the four constants. *)
Theorem SetStates_keep_creation_arguments
  (calls : list (Z * State)) (now : Z)
  (id : string) (pri delay ttr bytes : Z) (data : string) :
  result (Job.Id now (after (SetStates calls (NewJob id pri delay ttr bytes data)))) = id /\
  Job.Pri (after (SetStates calls (NewJob id pri delay ttr bytes data))) = pri /\
  Job.Delay (after (SetStates calls (NewJob id pri delay ttr bytes data))) = delay /\
  Job.TTR (after (SetStates calls (NewJob id pri delay ttr bytes data))) = ttr /\
  Job.Bytes (after (SetStates calls (NewJob id pri delay ttr bytes data))) = bytes /\
  Job.Data (after (SetStates calls (NewJob id pri delay ttr bytes data))) = data /\
  named (result (Job.State now (after (SetStates calls (NewJob id pri delay ttr bytes data))))).
Proof.
  unfold Job.Id, Job.State, load, result at 1; simpl.
  destruct (SetStates_keep_arguments calls (NewJob id pri delay ttr bytes data))
    as (-> & -> & -> & -> & -> & ->).
  rewrite NewJob_fields; simpl.
  repeat split.
  apply SetStates_named. simpl. unfold named.
  destruct (delay <=? 0); auto.
Qed.

(** Reserve, a second reserve that is refused, bury, kick. *)
Lemma SetStates_keep_creation_arguments_witness :
  result (Job.Id 1700000009
            (after (SetStates [(1700000001, RESERVED); (1700000002, RESERVED);
                               (1700000003, BURIED); (1700000004, READY)]
                              (NewJob "7" 5 0 60 1 "x")))) = "7".
Proof.
  apply (SetStates_keep_creation_arguments
           [(1700000001, RESERVED); (1700000002, RESERVED);
            (1700000003, BURIED); (1700000004, READY)]
           1700000009 "7" 5 0 60 1 "x").
Defined.

Lemma last_cons_default {A : Type} (a d : A) (l : list A) :
  last (a :: l) d = last l a.
Proof.
  revert a d. induction l as [| b l IH]; intros a d; [reflexivity|].
  change (last (a :: b :: l) d) with (last (b :: l) d).
  now rewrite !IH.
Qed.

(** X5. A sequence of calls with named targets is accepted as a whole (every
    call returns [nil]) exactly when the targets, taken from the state the
    job is in, walk along the edges of the diagram; the job then ends in
    the last target. *)
Theorem SetStates_accepted_iff_path (calls : list (Z * State)) (j : Job) :
  Forall named (map snd calls) ->
  (Forall (fun r => r = None) (result (SetStates calls j)) <->
     path (Job.state j) (map snd calls)) /\
  (path (Job.state j) (map snd calls) ->
     Job.state (after (SetStates calls j)) = last (map snd calls) (Job.state j)).
Proof.
  revert j. induction calls as [| [now st] rest IH]; intros j Hnamed.
  - simpl. split; [split; constructor | reflexivity].
  - simpl map in *. inversion Hnamed as [| ? ? Hst Hrest]; subst.
    destruct (SetStates_cons now st rest j) as [-> ->].
    pose proof (SetState_nil_iff_edge now st j Hst) as Hedge.
    pose proof (SetState_nil_state now st j Hst) as Hmoved.
    destruct (IH (after (Job.SetState st now j)) Hrest) as [IHacc IHlast].
    split; [split|].
    + intros Hall. inversion Hall as [| ? ? Hnil Hes]; subst.
      rewrite (Hmoved Hnil) in IHacc.
      split; [now apply Hedge | now apply IHacc].
    + intros [He Hp]. apply Hedge in He.
      rewrite (Hmoved He) in IHacc.
      constructor; [exact He | now apply IHacc].
    + intros [He Hp]. apply Hedge in He.
      rewrite (Hmoved He) in IHlast.
      rewrite last_cons_default. now apply IHlast.
Qed.

(** The longest round of the diagram: reserve, release with a delay, wait,
    reserve, bury, kick. *)
Lemma SetStates_accepted_iff_path_witness :
  Forall (fun r => r = None)
    (result (SetStates [(1700000001, RESERVED); (1700000002, DELAYED);
                        (1700000012, READY); (1700000013, RESERVED);
                        (1700000014, BURIED); (1700000099, READY)]
                       (NewJob "7" 5 0 60 1 "x"))).
Proof.
  apply (SetStates_accepted_iff_path
           [(1700000001, RESERVED); (1700000002, DELAYED);
            (1700000012, READY); (1700000013, RESERVED);
            (1700000014, BURIED); (1700000099, READY)]
           (NewJob "7" 5 0 60 1 "x")).
  - repeat constructor; unfold named; tauto.
  - simpl. repeat split; constructor.
Defined.

(** ** Where the timestamps of a job come from *)

(** After any sequence of calls, a job that is RESERVED (DELAYED) either
    carries the reading of the clock of one of the calls that targeted
    RESERVED (DELAYED), or is still exactly the job the sequence began
    with. *)
Lemma SetStates_entry_timestamps (calls : list (Z * State)) (j : Job) :
  (Job.state (after (SetStates calls j)) = RESERVED ->
     In (Job.StartedTTRAt (after (SetStates calls j)), RESERVED) calls \/
     after (SetStates calls j) = j) /\
  (Job.state (after (SetStates calls j)) = DELAYED ->
     In (Job.StartedDelayAt (after (SetStates calls j)), DELAYED) calls \/
     after (SetStates calls j) = j).
Proof.
  destruct State_constants_distinct as (H01 & H02 & H03 & H12 & H13 & H23).
  revert j. induction calls as [| [now st] rest IH]; intros j.
  - split; intros _; now right.
  - destruct (SetStates_cons now st rest j) as [_ ->].
    destruct (IH (after (Job.SetState st now j))) as [IHr IHd].
    split; intros Hend.
    + destruct (IHr Hend) as [Hin | Hsame]; [left; now right|].
      rewrite Hsame in *.
      destruct (SetState_after_shape now st j)
        as [Hj | [(Hnd & Hnr & Hj) | [(Hst & Hj) | (Hst & Hj)]]];
        rewrite Hj in *; simpl in Hend; subst; simpl; auto; congruence.
    + destruct (IHd Hend) as [Hin | Hsame]; [left; now right|].
      rewrite Hsame in *.
      destruct (SetState_after_shape now st j)
        as [Hj | [(Hnd & Hnr & Hj) | [(Hst & Hj) | (Hst & Hj)]]];
        rewrite Hj in *; simpl in Hend; subst; simpl; auto; congruence.
Qed.

(** X6. A job built by [NewJob] that is RESERVED after a sequence of
    [SetState] calls has in [StartedTTRAt] the reading of the clock of one
    of the [SetState(RESERVED)] calls of the sequence: the timestamp of a
    reserved job is never the zero value the job was created with. *)
Theorem SetStates_RESERVED_timestamp_from_call
  (calls : list (Z * State))
  (id : string) (pri delay ttr bytes : Z) (data : string) :
  Job.state (after (SetStates calls (NewJob id pri delay ttr bytes data))) = RESERVED ->
  In (Job.StartedTTRAt (after (SetStates calls (NewJob id pri delay ttr bytes data))),
      RESERVED) calls.
Proof.
  intros Hend.
  destruct (SetStates_entry_timestamps calls (NewJob id pri delay ttr bytes data))
    as [Hres _].
  destruct (Hres Hend) as [Hin | Hsame]; [exact Hin|].
  rewrite Hsame, NewJob_state in Hend.
  destruct (delay <=? 0); discriminate Hend.
Qed.

(** Reserved, released, reserved again: the timestamp is that of a
    reserve of the sequence. *)
Lemma SetStates_RESERVED_timestamp_from_call_witness :
  In (Job.StartedTTRAt
        (after (SetStates [(1700000001, RESERVED); (1700000002, READY);
                           (1700000003, RESERVED)] (NewJob "7" 5 0 60 1 "x"))),
      RESERVED)
     [(1700000001, RESERVED); (1700000002, READY); (1700000003, RESERVED)].
Proof.
  apply (SetStates_RESERVED_timestamp_from_call
           [(1700000001, RESERVED); (1700000002, READY); (1700000003, RESERVED)]
           "7" 5 0 60 1 "x").
  reflexivity.
Defined.

(** X7. A job built by [NewJob] that is DELAYED after a sequence of
    [SetState] calls has in [StartedDelayAt] the reading of the clock of one
    of the [SetState(DELAYED)] calls, unless it was created with a positive
    delay and no call of the sequence has changed it. *)
Theorem SetStates_DELAYED_timestamp_from_call_or_creation
  (calls : list (Z * State))
  (id : string) (pri delay ttr bytes : Z) (data : string) :
  Job.state (after (SetStates calls (NewJob id pri delay ttr bytes data))) = DELAYED ->
  In (Job.StartedDelayAt (after (SetStates calls (NewJob id pri delay ttr bytes data))),
      DELAYED) calls \/
  0 < delay /\
  after (SetStates calls (NewJob id pri delay ttr bytes data)) =
  NewJob id pri delay ttr bytes data.
Proof.
  intros Hend.
  destruct (SetStates_entry_timestamps calls (NewJob id pri delay ttr bytes data))
    as [_ Hdel].
  destruct (Hdel Hend) as [Hin | Hsame]; [now left | right].
  split; [|exact Hsame].
  rewrite Hsame, NewJob_state in Hend.
  destruct (Z.leb_spec delay 0); [discriminate Hend | assumption].
Qed.

(** A job put with a delay that becomes ready, is reserved and is released
    with a delay. *)
Lemma SetStates_DELAYED_timestamp_from_call_or_creation_witness :
  In (Job.StartedDelayAt
        (after (SetStates [(1700000002, READY); (1700000003, RESERVED);
                           (1700000004, DELAYED)] (NewJob "2" 1 2 60 1 "y"))),
      DELAYED)
     [(1700000002, READY); (1700000003, RESERVED); (1700000004, DELAYED)] \/
  0 < 2 /\
  after (SetStates [(1700000002, READY); (1700000003, RESERVED);
                    (1700000004, DELAYED)] (NewJob "2" 1 2 60 1 "y")) =
  NewJob "2" 1 2 60 1 "y".
Proof.
  apply (SetStates_DELAYED_timestamp_from_call_or_creation
           [(1700000002, READY); (1700000003, RESERVED); (1700000004, DELAYED)]
           "2" 1 2 60 1 "y").
  reflexivity.
Defined.

(** * Further properties of the key *)

(** The key as an integer, when the subtractions fit. *)
Lemma Key_exact (now : Z) (j : Job) :
  Key_fits now j ->
  result (Job.Key now j) =
  if Job.state j =? READY then Job.Pri j
  else if Job.state j =? DELAYED then
    Job.Delay j - (now - Job.StartedDelayAt j)
  else if Job.state j =? RESERVED then
    Job.TTR j - (now - Job.StartedTTRAt j)
  else 0.
Proof.
  intros [Hdel Hres]. rewrite Key_run; unfold result; simpl.
  destruct (Z.eqb_spec (Job.state j) READY); [reflexivity|].
  destruct (Z.eqb_spec (Job.state j) DELAYED) as [Hd | _].
  { destruct (Hdel Hd) as [Hel Hkey].
    rewrite (Int64_sub_exact now _ Hel). now apply Int64_sub_exact. }
  destruct (Z.eqb_spec (Job.state j) RESERVED) as [Hr | _]; [|reflexivity].
  destruct (Hres Hr) as [Hel Hkey].
  rewrite (Int64_sub_exact now _ Hel). now apply Int64_sub_exact.
Qed.

Lemma nonnegative_span_fits (span t : Z) :
  0 <= span <= Int64.max_int -> 0 <= t <= Int64.max_int ->
  Int64.in_range t /\ Int64.in_range (span - t).
Proof.
  unfold Int64.in_range, Int64.min_int, Int64.max_int. lia.
Qed.

(** ** The key of a job that was just reserved or delayed *)

(** X8. A ready job reserved when the clock reads [now] has, [t] seconds
    later, the key [TTR - t]: the time to run counts down from the moment of
    the reserve, whatever [now] is. The time to run and [t] are
    non-negative [int64] values. *)
Theorem Key_counts_down_from_reserve (now t : Z) (j : Job) :
  Job.state j = READY ->
  0 <= Job.TTR j <= Int64.max_int ->
  0 <= t <= Int64.max_int ->
  result (Job.SetState RESERVED now j) = None /\
  result (Job.Key (now + t) (after (Job.SetState RESERVED now j))) = Job.TTR j - t.
Proof.
  intros Hst Httr Ht.
  destruct (nonnegative_span_fits (Job.TTR j) t Httr Ht) as [Hel Hkey].
  assert (Hrun : Job.SetState RESERVED now j =
                 (None, Job.set_StartedTTRAt now (Job.set_state RESERVED j)))
    by now rewrite SetState_RESERVED_run, Hst.
  rewrite Hrun. split; [reflexivity|].
  rewrite Key_run; unfold result, after; simpl.
  unfold Int64.sub.
  replace (now + t - now) with t by lia.
  rewrite (Int64_wrap_exact t Hel). now apply Int64_wrap_exact.
Qed.

(** A job with a minute to run, forty seconds after the reserve. *)
Lemma Key_counts_down_from_reserve_witness :
  result (Job.Key (1700000001 + 40)
            (after (Job.SetState RESERVED 1700000001 (NewJob "7" 5 0 60 1 "x")))) = 60 - 40.
Proof.
  apply (Key_counts_down_from_reserve 1700000001 40 (NewJob "7" 5 0 60 1 "x"));
    [reflexivity | |]; unfold Int64.max_int; simpl; lia.
Defined.

(** X9. A reserved job released with a delay when the clock reads [now]
    has, [t] seconds later, the key [Delay - t]: the delay counts down from
    the release. The delay and [t] are non-negative [int64] values. *)
Theorem Key_counts_down_from_release_with_delay (now t : Z) (j : Job) :
  Job.state j = RESERVED ->
  0 <= Job.Delay j <= Int64.max_int ->
  0 <= t <= Int64.max_int ->
  result (Job.SetState DELAYED now j) = None /\
  result (Job.Key (now + t) (after (Job.SetState DELAYED now j))) = Job.Delay j - t.
Proof.
  intros Hst Hdelay Ht.
  destruct (nonnegative_span_fits (Job.Delay j) t Hdelay Ht) as [Hel Hkey].
  assert (Hrun : Job.SetState DELAYED now j =
                 (None, Job.set_StartedDelayAt now (Job.set_state DELAYED j)))
    by now rewrite SetState_DELAYED_run, Hst.
  rewrite Hrun. split; [reflexivity|].
  rewrite Key_run; unfold result, after; simpl.
  unfold Int64.sub.
  replace (now + t - now) with t by lia.
  rewrite (Int64_wrap_exact t Hel). now apply Int64_wrap_exact.
Qed.

(** A reserved job with a delay of ten seconds, four seconds after its
    release. *)
Lemma Key_counts_down_from_release_with_delay_witness :
  result (Job.Key (1700000030 + 4)
            (after (Job.SetState DELAYED 1700000030
                      (Job.mk "7" 5 10 0 1700000000 60 1 "x" RESERVED)))) = 10 - 4.
Proof.
  apply (Key_counts_down_from_release_with_delay 1700000030 4
           (Job.mk "7" 5 10 0 1700000000 60 1 "x" RESERVED));
    [reflexivity | |]; unfold Int64.max_int; simpl; lia.
Defined.

(** ** Keys and the passing of time *)

(** X10. Two jobs in the same state keep their order by key as time passes:
    whenever the keys are computed without overflow, comparing them when
    the clock reads [now] and when it reads [now'] gives the same answer.
    A collection of jobs of one state ordered by key stays ordered. *)
Theorem Key_order_same_state_time_invariant (now now' : Z) (j1 j2 : Job) :
  Job.state j1 = Job.state j2 ->
  Key_fits now j1 -> Key_fits now j2 ->
  Key_fits now' j1 -> Key_fits now' j2 ->
  (result (Job.Key now j1) <= result (Job.Key now j2) <->
   result (Job.Key now' j1) <= result (Job.Key now' j2)).
Proof.
  intros Hst F1 F2 F1' F2'.
  rewrite !Key_exact by assumption.
  rewrite Hst.
  destruct (Job.state j2 =? READY); [tauto|].
  destruct (Job.state j2 =? DELAYED); [lia|].
  destruct (Job.state j2 =? RESERVED); [lia | tauto].
Qed.

(** Two delayed jobs, compared five seconds and eight seconds after the
    second was delayed. *)
Lemma Key_order_same_state_time_invariant_witness :
  result (Job.Key 1700000005 (Job.mk "7" 5 10 1699999998 0 60 1 "x" DELAYED)) <=
  result (Job.Key 1700000005 (Job.mk "8" 1 30 1700000000 0 60 1 "y" DELAYED)) <->
  result (Job.Key 1700000008 (Job.mk "7" 5 10 1699999998 0 60 1 "x" DELAYED)) <=
  result (Job.Key 1700000008 (Job.mk "8" 1 30 1700000000 0 60 1 "y" DELAYED)).
Proof.
  apply (Key_order_same_state_time_invariant 1700000005 1700000008
           (Job.mk "7" 5 10 1699999998 0 60 1 "x" DELAYED)
           (Job.mk "8" 1 30 1700000000 0 60 1 "y" DELAYED));
    [reflexivity | | | |];
    (split; intros Hst; [|discriminate Hst]);
    unfold elapsed_fits, Int64.in_range, Int64.min_int, Int64.max_int; simpl; lia.
Defined.

(** X11. When the key is computed without overflow, the key of a DELAYED
    job is at most 0 exactly when the clock has reached
    [StartedDelayAt + Delay], and the key of a RESERVED job is at most 0
    exactly when the clock has reached [StartedTTRAt + TTR]. *)
Theorem Key_nonpositive_iff_due (now : Z) (j : Job) :
  Key_fits now j ->
  (Job.state j = DELAYED ->
     (result (Job.Key now j) <= 0 <-> Job.StartedDelayAt j + Job.Delay j <= now)) /\
  (Job.state j = RESERVED ->
     (result (Job.Key now j) <= 0 <-> Job.StartedTTRAt j + Job.TTR j <= now)).
Proof.
  intros Hfits. rewrite (Key_exact now j Hfits).
  split; intros ->; simpl; lia.
Qed.

(** A job reserved for a minute, exactly one minute after the reserve. *)
Lemma Key_nonpositive_iff_due_witness :
  result (Job.Key 1700000060 (Job.mk "7" 5 0 0 1700000000 60 1 "x" RESERVED)) <= 0 <->
  1700000000 + 60 <= 1700000060.
Proof.
  apply (Key_nonpositive_iff_due 1700000060 (Job.mk "7" 5 0 0 1700000000 60 1 "x" RESERVED)).
  - split; intros Hst; [discriminate Hst|].
    unfold elapsed_fits, Int64.in_range, Int64.min_int, Int64.max_int; simpl; lia.
  - reflexivity.
Defined.

(** X12. Overflow: a DELAYED job whose delay is the least [int64] has, as
    soon as a second has passed since [StartedDelayAt], a positive key
    ([2^63] minus the seconds elapsed) although its deadline is long past. *)
Theorem Key_wraps_at_least_delay (now : Z) (j : Job) :
  Job.state j = DELAYED ->
  Job.Delay j = Int64.min_int ->
  0 < now - Job.StartedDelayAt j <= Int64.max_int ->
  result (Job.Key now j) = 2 ^ 63 - (now - Job.StartedDelayAt j) /\
  0 < result (Job.Key now j) /\
  Job.StartedDelayAt j + Job.Delay j <= now.
Proof.
  intros Hst Hdelay Hel.
  assert (Hkey : result (Job.Key now j) = 2 ^ 63 - (now - Job.StartedDelayAt j)).
  { rewrite Key_run, Hst; unfold result; cbn [fst].
    change (DELAYED =? READY) with false. change (DELAYED =? DELAYED) with true.
    cbv iota.
    rewrite (Int64_sub_exact now)
      by (unfold Int64.in_range, Int64.min_int, Int64.max_int in *; lia).
    rewrite Hdelay. unfold Int64.sub, Int64.wrap, Int64.min_int.
    unfold Int64.max_int in Hel.
    replace (- 2 ^ 63 - (now - Job.StartedDelayAt j) + 2 ^ 63)
      with (2 ^ 64 - (now - Job.StartedDelayAt j) + (-1) * 2 ^ 64) by lia.
    rewrite Z.mod_add by lia.
    rewrite Z.mod_small by lia.
    lia. }
  rewrite Hkey, Hdelay. unfold Int64.min_int, Int64.max_int in *. lia.
Qed.

(** A job put with the least delay, reserved and released with that delay,
    five seconds after the release. *)
Lemma Key_wraps_at_least_delay_witness :
  result (Job.Key 1700000007
            (after (SetStates [(1700000001, RESERVED); (1700000002, DELAYED)]
                              (NewJob "9" 0 (- 2 ^ 63) 60 1 "z")))) = 2 ^ 63 - 5.
Proof.
  apply (Key_wraps_at_least_delay 1700000007
           (after (SetStates [(1700000001, RESERVED); (1700000002, DELAYED)]
                             (NewJob "9" 0 (- 2 ^ 63) 60 1 "z"))));
    [reflexivity | reflexivity |].
  unfold Int64.max_int; simpl. lia.
Defined.

(** ** The key of a reserved job over its life *)

(** X13. A job built by [NewJob] with a non-negative time to run and
    driven by [SetState] calls made while the clock read between 0 and
    [now]: if it is RESERVED, its key at [now] is computed without overflow,
    is the time to run minus the seconds since one of the
    [SetState(RESERVED)] calls, and so never exceeds the time to run. *)
Theorem Key_of_reserved_job_bounded_by_TTR
  (calls : list (Z * State)) (now : Z)
  (id : string) (pri delay ttr bytes : Z) (data : string) :
  0 <= ttr <= Int64.max_int ->
  now <= Int64.max_int ->
  Forall (fun c => 0 <= fst c <= now) calls ->
  Job.state (after (SetStates calls (NewJob id pri delay ttr bytes data))) = RESERVED ->
  (exists t, In (t, RESERVED) calls /\
     result (Job.Key now (after (SetStates calls (NewJob id pri delay ttr bytes data)))) =
     ttr - (now - t)) /\
  result (Job.Key now (after (SetStates calls (NewJob id pri delay ttr bytes data)))) <= ttr.
Proof.
  intros Httr Hnow Hclock Hend.
  set (j' := after (SetStates calls (NewJob id pri delay ttr bytes data))) in *.
  (* the timestamp is the reading of a reserve of the sequence *)
  assert (Hin : In (Job.StartedTTRAt j', RESERVED) calls).
  { destruct (SetStates_entry_timestamps calls (NewJob id pri delay ttr bytes data))
      as [Hres _].
    destruct (Hres Hend) as [Hin | Hsame]; [exact Hin|].
    fold j' in Hsame. rewrite Hsame, NewJob_state in Hend.
    destruct (delay <=? 0); discriminate Hend. }
  assert (Hts : 0 <= Job.StartedTTRAt j' <= now).
  { rewrite Forall_forall in Hclock. exact (Hclock _ Hin). }
  assert (Hspan : Job.TTR j' = ttr).
  { destruct (SetStates_keep_arguments calls (NewJob id pri delay ttr bytes data))
      as (_ & _ & _ & Hkeep & _).
    fold j' in Hkeep. rewrite Hkeep, NewJob_fields. reflexivity. }
  assert (Hfits : Key_fits now j').
  { destruct State_constants_distinct as (_ & _ & _ & Hdr & _ & _).
    split; intros Hst; [rewrite Hend in Hst; now elim Hdr|].
    rewrite Hspan.
    unfold elapsed_fits, Int64.in_range, Int64.min_int, Int64.max_int in *. lia. }
  assert (Hkey : result (Job.Key now j') = ttr - (now - Job.StartedTTRAt j')).
  { rewrite (Key_exact now j' Hfits), Hend, Hspan. reflexivity. }
  split; [exists (Job.StartedTTRAt j'); now split | lia].
Qed.

(** Reserved one second after the put and read fifty seconds later. *)
Lemma Key_of_reserved_job_bounded_by_TTR_witness :
  result (Job.Key 1700000051
            (after (SetStates [(1700000001, RESERVED)] (NewJob "7" 5 0 60 1 "x")))) <= 60.
Proof.
  apply (Key_of_reserved_job_bounded_by_TTR
           [(1700000001, RESERVED)] 1700000051 "7" 5 0 60 1 "x").
  - unfold Int64.max_int. lia.
  - unfold Int64.max_int. lia.
  - repeat constructor; simpl; lia.
  - reflexivity.
Defined.
